(** * ProfilerEnum: the COM-style enumerator template of the profiling API

    A shallow embedding of [src/vm/profilingenumerators.h].  The class
    template [ProfilerEnum<EnumInterface, Element, pEnumInterfaceIID>] is
    embedded as a record of its three data members; every member function
    becomes a function that takes the object state (and, where the code
    writes through an out-pointer, the present content of the pointed-to
    slot) and returns the [HRESULT], the new content of the out-slots and
    the new object state.  Objects live in a heap indexed by addresses, so
    that [Clone], [Release] and pointer identity can be spoken about. *)

From Stdlib Require Import ZArith Lia.
From stdpp Require Import base option list gmap.

Local Open Scope Z_scope.

(** ** Machine integers and result codes *)

(** [ULONG] is an unsigned 32-bit integer: arithmetic wraps modulo 2^32. *)
Definition to_ULONG (x : Z) : Z := x mod 2 ^ 32.

(** [LONG] and [int] are signed 32-bit integers (two's complement). *)
Definition to_LONG (x : Z) : Z := (x + 2 ^ 31) mod 2 ^ 32 - 2 ^ 31.

Definition ULONG_MAX : Z := 2 ^ 32 - 1.
Definition INT_MAX : Z := 2 ^ 31 - 1.

Definition is_ULONG (x : Z) : Prop := 0 <= x <= ULONG_MAX.
Definition is_LONG (x : Z) : Prop := - 2 ^ 31 <= x <= INT_MAX.

(** The [min(a, b)] macro: [((a) < (b)) ? (a) : (b)]. *)
Definition min (a b : Z) : Z := if a <? b then a else b.

(** The result codes the enumerator returns. *)
Inductive HRESULT : Type :=
  | S_OK
  | S_FALSE
  | E_INVALIDARG
  | E_OUTOFMEMORY
  | E_NOINTERFACE.

(** [SUCCEEDED(hr)]: the two completion signals are successes. *)
Definition SUCCEEDED (hr : HRESULT) : bool :=
  match hr with
  | S_OK | S_FALSE => true
  | _ => false
  end.

(** ** Pointers and out-parameters *)

(** Addresses of enumerator objects. *)
Definition loc : Type := positive.

(** An interface pointer: [None] is [NULL]. *)
Definition ptr : Type := option loc.

(** An out-parameter of type [T*] is passed as [option T]: [None] is a
    [NULL] pointer, [Some v] a pointer to a slot that now holds [v].
    [*p = v] on a non-null pointer: *)
Definition out_write {T : Type} (p : option T) (v : T) : option T :=
  match p with
  | Some _ => Some v
  | None => None
  end.

(** [for (ULONG i = start; ...; ++i) body], run for [n] iterations. *)
Fixpoint for_range {St : Type} (i : Z) (n : nat) (body : Z -> St -> St) (s : St) : St :=
  match n with
  | O => s
  | S n' => for_range (i + 1) n' body (body i s)
  end.

Section ProfilerEnum.

(** Template parameters. *)
Context {Element : Type}.
Context {IID : Type} `{!EqDecision IID}.
Variable pEnumInterfaceIID : IID.
Variable IID_IUnknown : IID.

(** ** CDynArray *)

(** Modelled from the spec: [CDynArray<Element>] is declared outside the
    file under study; only its uses are in it.  The spec calls the
    backing store an ordered sequence of value-copyable elements, so an
    array is the list of its elements.  [Count()] returns an [int]. *)
Definition Count (a : list Element) : Z := Z.of_nat (length a).

(** Modelled from the spec: [a[i]] read.  An index outside the array is
    undefined in C++; the model gives no value there. *)
Definition Get (a : list Element) (i : Z) : option Element :=
  if i <? 0 then None else a !! Z.to_nat i.

(** Modelled from the spec: [AllocateBlockThrowing(count)] appends
    [count] slots or throws.  [None] is a throwing allocator, [Some junk]
    one that succeeds and hands out slots whose content [junk i] is
    whatever the memory held. *)
Definition AllocateBlockThrowing (alloc : option (nat -> Element)) (count : Z)
    (a : list Element) : option (list Element) :=
  match alloc with
  | None => None
  | Some junk => Some (a ++ map junk (seq 0 (Z.to_nat count)))
  end.

(** [dst[i] = src[j]], for arrays and caller buffers alike.  A read or a
    write outside the bounds is undefined in C++; the model leaves [dst]
    as it is. *)
Definition assign (dst : list Element) (i : Z) (src : list Element) (j : Z)
    : list Element :=
  match Get src j with
  | Some v => if i <? 0 then dst else <[Z.to_nat i := v]> dst
  | None => dst
  end.

(** ** The object *)

Record ProfilerEnum : Type := mkProfilerEnum {
  m_currentElement : Z;          (* ULONG *)
  m_elements : list Element;     (* CDynArray< Element > *)
  m_refCount : Z                 (* LONG *)
}.

Definition set_currentElement (this : ProfilerEnum) (c : Z) : ProfilerEnum :=
  mkProfilerEnum c (m_elements this) (m_refCount this).

Definition set_refCount (this : ProfilerEnum) (r : Z) : ProfilerEnum :=
  mkProfilerEnum (m_currentElement this) (m_elements this) r.

(** [ProfilerEnum(CDynArray< Element >* elements)]: [None] when
    [AllocateBlockThrowing] throws. *)
Definition ProfilerEnum_ctor (alloc : option (nat -> Element))
    (elements : list Element) : option ProfilerEnum :=
  let count := to_ULONG (Count elements) in
  match AllocateBlockThrowing alloc count [] with
  | None => None
  | Some block =>
      Some (mkProfilerEnum 0
              (for_range 0 (Z.to_nat count)
                 (fun i m => assign m i elements i) block)
              1)
  end.

(** [ProfilerEnum()]: the default constructor. *)
Definition ProfilerEnum_ctor0 : ProfilerEnum := mkProfilerEnum 0 [] 1.

(** ** IUnknown functions *)

(** [InterlockedIncrement] / [InterlockedDecrement] on a [LONG]. *)
Definition InterlockedIncrement (v : Z) : Z := to_LONG (v + 1).
Definition InterlockedDecrement (v : Z) : Z := to_LONG (v - 1).

(** [AddRef]: the returned [ULONG] and the object. *)
Definition AddRef (this : ProfilerEnum) : Z * ProfilerEnum :=
  let r := InterlockedIncrement (m_refCount this) in
  (to_ULONG r, set_refCount this r).

(** [Release]: the returned [ULONG] and the object, [None] once
    [delete this] has run. *)
Definition Release (this : ProfilerEnum) : Z * option ProfilerEnum :=
  let refCount := to_ULONG (InterlockedDecrement (m_refCount this)) in
  if 0 =? refCount
  then (refCount, None)
  else (refCount, Some (set_refCount this (InterlockedDecrement (m_refCount this)))).

(** [QueryInterface(id, pInterface)] on the object at address [self].
    [pInterface] is dereferenced without a check, so it is a slot, given
    by its present content. *)
Definition QueryInterface (self : loc) (id : IID) (pInterface : ptr)
    (this : ProfilerEnum) : HRESULT * ptr * ProfilerEnum :=
  if decide (pEnumInterfaceIID = id) then
    (S_OK, Some self, snd (AddRef this))
  else if decide (IID_IUnknown = id) then
    (S_OK, Some self, snd (AddRef this))
  else
    (E_NOINTERFACE, None, this).

(** ** IEnumXXX functions *)

(** [Next(elementsRequested, elements, elementsFetched)]: the result
    code, the caller's buffer, the fetched-count slot and the object.
    The [_ASSERTE] lines of the source are debug checks of
    [cursor_in_range] below; they compute nothing. *)
Definition Next (elementsRequested : Z) (elements : option (list Element))
    (elementsFetched : option Z) (this : ProfilerEnum)
    : HRESULT * option (list Element) * option Z * ProfilerEnum :=
  if bool_decide (elementsFetched = None) && (1 <? elementsRequested) then
    (E_INVALIDARG, elements, elementsFetched, this)
  else if 0 =? elementsRequested then
    (S_OK, elements, out_write elementsFetched 0, this)
  else
    match elements with
    | None => (E_INVALIDARG, elements, elementsFetched, this)
    | Some buffer =>
        let elementsToCopy :=
          min elementsRequested
              (to_ULONG (Count (m_elements this) - m_currentElement this)) in
        let buffer' :=
          for_range 0 (Z.to_nat elementsToCopy)
            (fun i b =>
               assign b i (m_elements this)
                      (to_ULONG (m_currentElement this + i)))
            buffer in
        let this' :=
          set_currentElement this
            (to_ULONG (m_currentElement this + elementsToCopy)) in
        (if elementsToCopy <? elementsRequested then S_FALSE else S_OK,
         Some buffer',
         out_write elementsFetched elementsToCopy,
         this')
    end.

(** [GetCount(count)]. *)
Definition GetCount (count : option Z) (this : ProfilerEnum)
    : HRESULT * option Z * ProfilerEnum :=
  match count with
  | None => (E_INVALIDARG, None, this)
  | Some _ =>
      (S_OK,
       Some (to_ULONG (Count (m_elements this) - m_currentElement this)),
       this)
  end.

(** [Skip(count)]. *)
Definition Skip (count : Z) (this : ProfilerEnum) : HRESULT * ProfilerEnum :=
  let elementsToSkip :=
    min count (to_ULONG (Count (m_elements this) - m_currentElement this)) in
  let this' :=
    set_currentElement this (to_ULONG (m_currentElement this + elementsToSkip)) in
  (if elementsToSkip <? count then S_FALSE else S_OK, this').

(** [Reset()]. *)
Definition Reset (this : ProfilerEnum) : HRESULT * ProfilerEnum :=
  (S_OK, set_currentElement this 0).

(** What the two allocations of [new ProfilerEnum(&m_elements)] do:
    [operator new] returns an address or throws, and so does the block
    allocation inside the constructor. *)
Record NewOutcome : Type := mkNewOutcome {
  new_object : option loc;
  new_block : option (nat -> Element)
}.

(** [new ProfilerEnum(&m_elements)]: the address and the state of the
    new object, [None] when either allocation throws. *)
Definition new_ProfilerEnum (env : NewOutcome) (elements : list Element)
    : option (loc * ProfilerEnum) :=
  match new_object env with
  | None => None
  | Some l =>
      match ProfilerEnum_ctor (new_block env) elements with
      | None => None
      | Some e => Some (l, e)
      end
  end.

(** [Clone(pInterface)]: the result code, the caller's handle slot, the
    newly allocated object (if any) and the source object. *)
Definition Clone (pInterface : option ptr) (env : NewOutcome)
    (this : ProfilerEnum)
    : HRESULT * option ptr * option (loc * ProfilerEnum) * ProfilerEnum :=
  match pInterface with
  | None => (E_INVALIDARG, None, None, this)
  | Some _ =>
      match new_ProfilerEnum env (m_elements this) with
      | Some (l, e) => (S_OK, Some (Some l), Some (l, e), this)
      | None => (E_OUTOFMEMORY, Some None, None, this)
      end
  end.

(** ** Well-formed objects *)

(** The two assertions at the head of [Next]: the location of the
    iterator is sane. *)
Definition cursor_in_range (this : ProfilerEnum) : Prop :=
  0 <= m_currentElement this <= Count (m_elements this).

(** [Count()] is an [int]: an array holds at most [INT_MAX] elements. *)
Definition array_in_range (this : ProfilerEnum) : Prop :=
  Count (m_elements this) <= INT_MAX.

Definition Invariant (this : ProfilerEnum) : Prop :=
  cursor_in_range this /\ array_in_range this.

(** The elements a [Next] call hands to its caller: the first
    [*elementsFetched] entries of the buffer. *)
Definition fetched_elements (r : HRESULT * option (list Element) * option Z * ProfilerEnum)
    : list Element :=
  match r with
  | (_, Some buffer, Some n, _) => take (Z.to_nat n) buffer
  | _ => []
  end.

(** ** A heap of enumerators *)

(** One call of the enumerator protocol, with its arguments.  For
    [Clone], [new_succeeds] and [block] say what the two allocations of
    [new ProfilerEnum(&m_elements)] do. *)
Inductive Call : Type :=
  | CallQueryInterface (id : IID) (pInterface : ptr)
  | CallAddRef
  | CallRelease
  | CallNext (elementsRequested : Z) (elements : option (list Element))
             (elementsFetched : option Z)
  | CallGetCount (count : option Z)
  | CallSkip (count : Z)
  | CallReset
  | CallClone (pInterface : option ptr) (new_succeeds : bool)
              (block : option (nat -> Element)).

(** The [ULONG] parameters hold [ULONG] values. *)
Definition valid_call (c : Call) : Prop :=
  match c with
  | CallNext elementsRequested _ _ => is_ULONG elementsRequested
  | CallSkip count => is_ULONG count
  | _ => True
  end.

(** [operator new] on heap [h]: a fresh address, unless it throws. *)
Definition operator_new (new_succeeds : bool) (h : gmap loc ProfilerEnum)
    : option loc :=
  if new_succeeds then Some (fresh (dom h)) else None.

(** The heap after call [c] on the object at address [self].  A call
    through a dangling pointer is undefined; the model leaves the heap
    as it is. *)
Definition exec (c : Call) (self : loc) (h : gmap loc ProfilerEnum)
    : gmap loc ProfilerEnum :=
  match h !! self with
  | None => h
  | Some this =>
      match c with
      | CallQueryInterface id pInterface =>
          <[self := snd (QueryInterface self id pInterface this)]> h
      | CallAddRef => <[self := snd (AddRef this)]> h
      | CallRelease =>
          match snd (Release this) with
          | Some this' => <[self := this']> h
          | None => delete self h
          end
      | CallNext elementsRequested elements elementsFetched =>
          <[self := snd (Next elementsRequested elements elementsFetched this)]> h
      | CallGetCount count => <[self := snd (GetCount count this)]> h
      | CallSkip count => <[self := snd (Skip count this)]> h
      | CallReset => <[self := snd (Reset this)]> h
      | CallClone pInterface new_succeeds block =>
          match Clone pInterface
                      (mkNewOutcome (operator_new new_succeeds h) block) this with
          | (_, _, Some (l, e), this') => <[l := e]> (<[self := this']> h)
          | (_, _, None, this') => <[self := this']> h
          end
      end
  end.

(** A sequence of calls, each on the object at the address it names. *)
Definition run (trace : list (loc * Call)) (h : gmap loc ProfilerEnum)
    : gmap loc ProfilerEnum :=
  foldl (fun h call => exec (snd call) (fst call) h) h trace.

(** The calls [cs], all on the object at [self]. *)
Definition calls_on (self : loc) (cs : list Call) : list (loc * Call) :=
  map (fun c => (self, c)) cs.

(** A caller's run of [Next] calls, each with its request, its buffer and
    its fetched-count slot: the elements the calls hand out, in call
    order, and the object after the last call. *)
Fixpoint Next_calls (calls : list (Z * list Element * Z)) (this : ProfilerEnum)
    : list Element * ProfilerEnum :=
  match calls with
  | [] => ([], this)
  | (elementsRequested, buffer, old) :: rest =>
      let r := Next elementsRequested (Some buffer) (Some old) this in
      let after := Next_calls rest (snd r) in
      (fetched_elements r ++ fst after, snd after)
  end.

(** The sum of the requests of such a run. *)
Definition requested_total (calls : list (Z * list Element * Z)) : Z :=
  foldr (fun call acc => fst (fst call) + acc) 0 calls.

(** A request is served by a buffer with room for it. *)
Definition call_has_room (call : Z * list Element * Z) : Prop :=
  is_ULONG (fst (fst call))
  /\ fst (fst call) <= Z.of_nat (length (snd (fst call))).

End ProfilerEnum.

Arguments ProfilerEnum : clear implicits.
Arguments Call : clear implicits.
Arguments NewOutcome : clear implicits.

(** ** Sample data *)

(** [ProfilerObjectEnum]: elements are [ObjectID]s, identifiers are
    numbered. *)
Definition ObjectID : Type := Z.

Definition sample_IID_ICorProfilerObjectEnum : Z := 1.
Definition sample_IID_IUnknown : Z := 0.
Definition sample_IID_other : Z := 2.

(** The five-element sequence [A,B,C,D,E] of the scenario. *)
Definition sample_elements : list ObjectID := [65; 66; 67; 68; 69].

Definition sample_enum (cursor : Z) : ProfilerEnum ObjectID :=
  mkProfilerEnum cursor sample_elements 1.

(** A buffer of [n] slots that hold zero. *)
Definition sample_buffer (n : nat) : list ObjectID := replicate n 0.

Definition sample_heap : gmap loc (ProfilerEnum ObjectID) :=
  {[ 1%positive := sample_enum 2 ]}.

(** Calls that ask for more than there is, clone, and let go. *)
Definition sample_calls : list (Call ObjectID Z) :=
  [ CallNext 10 (Some (sample_buffer 10)) (Some 0);
    CallSkip 4294967295;
    CallReset;
    CallClone (Some None) true (Some (fun _ => 0));
    CallRelease ].

(** Requests of 2, 0, 1 and 4 elements, with buffers of that size. *)
Definition sample_Next_calls : list (Z * list ObjectID * Z) :=
  [ (2, sample_buffer 2, 0);
    (0, sample_buffer 0, 7);
    (1, sample_buffer 1, 0);
    (4, sample_buffer 4, 0) ].

(** * Properties *)

(** ** Machine arithmetic *)

Lemma to_ULONG_id (x : Z) : is_ULONG x -> to_ULONG x = x.
Proof.
  unfold is_ULONG, ULONG_MAX, to_ULONG. intros Hx.
  apply Z.mod_small. lia.
Qed.

Lemma to_LONG_id (x : Z) : is_LONG x -> to_LONG x = x.
Proof.
  unfold is_LONG, INT_MAX, to_LONG. intros Hx.
  rewrite Z.mod_small; lia.
Qed.

Lemma min_spec (a b : Z) : min a b = Z.min a b.
Proof. unfold min. destruct (Z.ltb_spec a b); lia. Qed.

Lemma for_range_snoc {St : Type} (body : Z -> St -> St) (n : nat) :
  forall (i : Z) (s : St),
    for_range i (S n) body s = body (i + Z.of_nat n) (for_range i n body s).
Proof.
  induction n as [|n IH]; intros i s.
  - simpl. by rewrite Z.add_0_r.
  - change (for_range i (S (S n)) body s)
      with (for_range (i + 1) (S n) body (body i s)).
    rewrite IH. simpl for_range. f_equal. lia.
Qed.

Section Properties.

Context {Element : Type}.
Context {IID : Type} `{!EqDecision IID}.
Variable pEnumInterfaceIID : IID.
Variable IID_IUnknown : IID.

Implicit Types (this e : ProfilerEnum Element) (buffer : list Element).

(** *** The copy loop *)

Lemma assign_in_range (dst src : list Element) (i j : nat) (v : Element) :
  src !! j = Some v ->
  assign dst (Z.of_nat i) src (Z.of_nat j) = <[i := v]> dst.
Proof.
  intros Hv. unfold assign, Get.
  destruct (Z.ltb_spec (Z.of_nat j) 0); [lia|].
  destruct (Z.ltb_spec (Z.of_nat i) 0); [lia|].
  by rewrite !Nat2Z.id, Hv.
Qed.

(** After [n] rounds of [dst[i] = src[c + i]] the first [n] slots of the
    destination hold [src[c .. c+n)] and the others are as before. *)
Lemma copy_loop (src : list Element) (c : nat) (idx : Z -> Z) (n : nat) :
  forall dst : list Element,
    (forall i : nat, (i < n)%nat -> idx (Z.of_nat i) = Z.of_nat (c + i)) ->
    (c + n <= length src)%nat ->
    (n <= length dst)%nat ->
    for_range 0 n (fun i b => assign b i src (idx i)) dst
    = take n (drop c src) ++ drop n dst.
Proof.
  induction n as [|n IH]; intros dst Hidx Hsrc Hdst.
  - by rewrite take_0, drop_0.
  - rewrite for_range_snoc, Z.add_0_l, IH by (auto with lia).
    destruct (lookup_lt_is_Some_2 src (c + n) ltac:(lia)) as [v Hv].
    rewrite Hidx by lia.
    rewrite (assign_in_range _ _ _ _ v Hv).
    assert (Hlen : length (take n (drop c src)) = n)
      by (rewrite length_take, length_drop; lia).
    rewrite insert_app_r_alt by lia.
    rewrite Hlen, Nat.sub_diag.
    destruct (drop n dst) as [|d rest] eqn:Hd.
    { apply (f_equal length) in Hd. rewrite length_drop in Hd. simpl in Hd. lia. }
    simpl. rewrite (take_S_r _ _ v) by (by rewrite lookup_drop).
    rewrite <- app_assoc. simpl. do 2 f_equal.
    replace (S n) with (n + 1)%nat by lia.
    by rewrite <- drop_drop, Hd.
Qed.

(** *** Arithmetic on a well-formed object *)

Lemma Invariant_bounds e :
  Invariant e ->
  0 <= m_currentElement e <= Count (m_elements e)
  /\ Count (m_elements e) <= 2 ^ 31 - 1.
Proof. by intros [Hc Ha]. Qed.

Lemma remaining_no_wrap e :
  Invariant e ->
  to_ULONG (Count (m_elements e) - m_currentElement e)
  = Count (m_elements e) - m_currentElement e.
Proof.
  intros [Hc Ha]%Invariant_bounds. apply to_ULONG_id.
  unfold is_ULONG, ULONG_MAX. lia.
Qed.

Lemma advance_no_wrap e (k : Z) :
  Invariant e ->
  0 <= k <= Count (m_elements e) - m_currentElement e ->
  to_ULONG (m_currentElement e + k) = m_currentElement e + k.
Proof.
  intros [Hc Ha]%Invariant_bounds Hk. apply to_ULONG_id.
  unfold is_ULONG, ULONG_MAX. lia.
Qed.

(** *** Next, past the corner cases *)

Lemma Next_copy e (req : Z) buffer (fetched : option Z) :
  Invariant e ->
  0 < req ->
  is_ULONG req ->
  (fetched = None -> req = 1) ->
  Z.min req (Count (m_elements e) - m_currentElement e)
    <= Z.of_nat (length buffer) ->
  Next req (Some buffer) fetched e
  = (if decide (Z.min req (Count (m_elements e) - m_currentElement e) = req)
     then S_OK else S_FALSE,
     Some (take (Z.to_nat (Z.min req (Count (m_elements e) - m_currentElement e)))
                (drop (Z.to_nat (m_currentElement e)) (m_elements e))
           ++ drop (Z.to_nat (Z.min req (Count (m_elements e) - m_currentElement e)))
                   buffer),
     out_write fetched (Z.min req (Count (m_elements e) - m_currentElement e)),
     set_currentElement e
       (m_currentElement e
        + Z.min req (Count (m_elements e) - m_currentElement e))).
Proof.
  intros Hinv Hpos Hreq Hfetched Hcap.
  pose proof (Invariant_bounds e Hinv) as [Hc Ha].
  unfold Next.
  assert (bool_decide (fetched = None) && (1 <? req) = false) as ->.
  { destruct fetched as [old|]; [done|].
    rewrite (Hfetched eq_refl). done. }
  destruct (Z.eqb_spec 0 req) as [?|_]; [lia|].
  rewrite (remaining_no_wrap e Hinv), min_spec.
  set (k := Z.min req (Count (m_elements e) - m_currentElement e)) in *.
  assert (Hk : 0 <= k <= Count (m_elements e) - m_currentElement e) by lia.
  rewrite (advance_no_wrap e k Hinv Hk).
  rewrite (copy_loop (m_elements e) (Z.to_nat (m_currentElement e))
             (fun i => to_ULONG (m_currentElement e + i))).
  - repeat f_equal.
    destruct (Z.ltb_spec k req); case_decide; done || lia.
  - intros i Hi. rewrite (advance_no_wrap e _ Hinv) by lia. lia.
  - unfold Count in *. lia.
  - lia.
Qed.

(** What a [Next] call with both out-parameters present yields, the
    request of zero included. *)
Lemma Next_fetched e (req : Z) buffer (old : Z) :
  Invariant e ->
  is_ULONG req ->
  Z.min req (Count (m_elements e) - m_currentElement e)
    <= Z.of_nat (length buffer) ->
  fetched_elements (Next req (Some buffer) (Some old) e)
  = take (Z.to_nat (Z.min req (Count (m_elements e) - m_currentElement e)))
         (drop (Z.to_nat (m_currentElement e)) (m_elements e))
  /\ snd (Next req (Some buffer) (Some old) e)
     = set_currentElement e
         (m_currentElement e
          + Z.min req (Count (m_elements e) - m_currentElement e)).
Proof.
  intros Hinv Hreq Hcap.
  pose proof (Invariant_bounds e Hinv) as [Hc Ha].
  destruct (decide (req = 0)) as [->|Hne].
  - replace (Z.min 0 (Count (m_elements e) - m_currentElement e)) with 0 by lia.
    unfold Next. simpl. rewrite Z.add_0_r. by destruct e.
  - rewrite Next_copy; [|done|unfold is_ULONG in Hreq; lia|done|done|done].
    simpl. split; [|done].
    rewrite take_app_le; [|rewrite length_take, length_drop; unfold Count in *; lia].
    rewrite take_take. f_equal. lia.
Qed.

Lemma Invariant_set_currentElement e (c : Z) :
  Invariant e ->
  0 <= c <= Count (m_elements e) ->
  Invariant (set_currentElement e c).
Proof. intros [Hc Ha] Hle. by split. Qed.

(** *** Construction *)

Lemma ProfilerEnum_ctor_copies (junk : nat -> Element) (elements : list Element) :
  Count elements <= INT_MAX ->
  ProfilerEnum_ctor (Some junk) elements = Some (mkProfilerEnum 0 elements 1).
Proof.
  intros Hsize. unfold ProfilerEnum_ctor, AllocateBlockThrowing.
  rewrite to_ULONG_id
    by (unfold is_ULONG, ULONG_MAX, INT_MAX, Count in *; lia).
  unfold Count. rewrite Nat2Z.id. simpl app.
  rewrite (copy_loop elements 0 (fun i => i)).
  - rewrite drop_0, firstn_all, drop_ge, app_nil_r; [done|].
    by rewrite length_map, length_seq.
  - done.
  - done.
  - by rewrite length_map, length_seq.
Qed.

Lemma Invariant_fresh (elements : list Element) (r : Z) :
  Count elements <= INT_MAX ->
  Invariant (mkProfilerEnum 0 elements r).
Proof.
  intros Hsize. split; [|done].
  unfold cursor_in_range, Count. simpl. lia.
Qed.

(** *** Theorems for the claims *)

(** C1.  On a well-formed enumerator with backing sequence of length [N]
    and cursor [c], [Next] with a positive request, a present buffer
    (with room for what is copied) and a present fetched-count slot
    copies exactly [min(requested, N - c)] elements, in sequence order
    from index [c], to the front of the buffer and leaves the rest of
    the buffer alone, advances the cursor by that amount, writes that
    amount to the fetched-count slot, and returns [S_OK] when the amount
    equals the request and [S_FALSE] otherwise; at the end of the
    sequence this is [S_FALSE] with 0 fetched. *)
Theorem Next_copies_min_of_requested_and_remaining
    e (requestedCount : Z) buffer (old : Z) :
  Invariant e ->
  0 < requestedCount ->
  is_ULONG requestedCount ->
  Z.min requestedCount (Count (m_elements e) - m_currentElement e)
    <= Z.of_nat (length buffer) ->
  let N := Count (m_elements e) in
  let c := m_currentElement e in
  let amount := Z.min requestedCount (N - c) in
  Next requestedCount (Some buffer) (Some old) e
  = (if decide (amount = requestedCount) then S_OK else S_FALSE,
     Some (take (Z.to_nat amount) (drop (Z.to_nat c) (m_elements e))
           ++ drop (Z.to_nat amount) buffer),
     Some amount,
     set_currentElement e (c + amount))
  /\ (c = N ->
      Next requestedCount (Some buffer) (Some old) e
      = (S_FALSE, Some buffer, Some 0, e)).
Proof.
  intros Hinv Hpos Hreq Hcap N c amount.
  assert (Hnext := Next_copy e requestedCount buffer (Some old)
                     Hinv Hpos Hreq ltac:(done) Hcap).
  split; [exact Hnext|].
  intros Hend. rewrite Hnext. fold N c.
  replace (Z.min requestedCount (N - c)) with 0 by lia.
  rewrite decide_False by lia.
  rewrite take_0, drop_0, Z.add_0_r. simpl.
  by destruct e.
Qed.

(** C5.  Whatever the state of the enumerator, [Next] with a request
    above one and no fetched-count slot returns [E_INVALIDARG] and
    leaves the object (cursor and backing sequence) and the buffer as
    they were. *)
Theorem Next_many_without_fetched_slot_is_invalid
    e (requestedCount : Z) (elements : option (list Element)) :
  1 < requestedCount ->
  Next requestedCount elements None e = (E_INVALIDARG, elements, None, e).
Proof.
  intros Hreq. unfold Next.
  destruct (Z.ltb_spec 1 requestedCount); [done|lia].
Qed.

(** C8.  Whatever the state of the enumerator (any cursor, any
    sequence), [Next] with a request of zero returns [S_OK], leaves the
    buffer (present or absent) and the object untouched, and writes 0 to
    the fetched-count slot when there is one. *)
Theorem Next_zero_is_fully_satisfied
    e (elements : option (list Element)) (old : Z) :
  Next 0 elements (Some old) e = (S_OK, elements, Some 0, e)
  /\ Next 0 elements None e = (S_OK, elements, None, e)
  /\ Next 0 None (Some old) e = (S_OK, None, Some 0, e).
Proof. by unfold Next. Qed.

(** C4.  On a well-formed enumerator at cursor 0 over a sequence of
    length [N], and for every split point [0 <= k <= N], the elements
    fetched by [Next(k)] followed by those fetched by [Next(N - k)] are,
    in order, the elements fetched by a single [Next(N)], namely the
    whole sequence; and both ways leave the enumerator in the same
    state. *)
Theorem Next_split_yields_the_same_as_one_call
    e (k : Z) (buffer1 buffer2 buffer : list Element) (old1 old2 old : Z) :
  Invariant e ->
  m_currentElement e = 0 ->
  0 <= k <= Count (m_elements e) ->
  k <= Z.of_nat (length buffer1) ->
  Count (m_elements e) - k <= Z.of_nat (length buffer2) ->
  Count (m_elements e) <= Z.of_nat (length buffer) ->
  let N := Count (m_elements e) in
  let first := Next k (Some buffer1) (Some old1) e in
  let second := Next (N - k) (Some buffer2) (Some old2) (snd first) in
  let whole := Next N (Some buffer) (Some old) e in
  fetched_elements first ++ fetched_elements second = fetched_elements whole
  /\ fetched_elements whole = m_elements e
  /\ snd second = snd whole.
Proof.
  intros Hinv Hzero Hk Hcap1 Hcap2 Hcap N first second whole.
  pose proof (Invariant_bounds e Hinv) as [Hc Ha]. fold N in Hc, Ha.
  assert (HkU : is_ULONG k) by (unfold is_ULONG, ULONG_MAX; lia).
  assert (HNU : is_ULONG N) by (unfold is_ULONG, ULONG_MAX; lia).
  assert (HNkU : is_ULONG (N - k)) by (unfold is_ULONG, ULONG_MAX; lia).
  destruct (Next_fetched e k buffer1 old1 Hinv HkU ltac:(lia)) as [Hf1 Hs1].
  destruct (Next_fetched e N buffer old Hinv HNU ltac:(lia)) as [Hf Hs].
  fold first in Hf1, Hs1. fold whole in Hf, Hs.
  rewrite Hzero in Hf1, Hs1, Hf, Hs. fold N in Hf1, Hs1, Hf, Hs.
  replace (Z.min k (N - 0)) with k in Hf1, Hs1 by lia.
  replace (Z.min N (N - 0)) with N in Hf, Hs by lia.
  assert (Hinv1 : Invariant (snd first)).
  { rewrite Hs1. apply Invariant_set_currentElement; [done|]. fold N. lia. }
  destruct (Next_fetched (snd first) (N - k) buffer2 old2 Hinv1 HNkU) as [Hf2 Hs2].
  { rewrite Hs1. simpl. fold N. lia. }
  fold second in Hf2, Hs2.
  rewrite Hs1 in Hf2, Hs2. simpl in Hf2, Hs2. fold N in Hf2, Hs2.
  replace (Z.min (N - k) (N - (0 + k))) with (N - k) in Hf2, Hs2 by lia.
  rewrite Hf1, Hf2, Hf, Hs2, Hs. simpl. rewrite !drop_0.
  replace (Z.to_nat N) with (length (m_elements e)) by (unfold N, Count; lia).
  rewrite firstn_all.
  split_and!; [|done|].
  - rewrite Z.add_0_l.
    rewrite (take_ge (drop _ _)); [apply take_drop|].
    rewrite length_drop. unfold N, Count. lia.
  - unfold set_currentElement. simpl. f_equal. lia.
Qed.

(** C6.  On a well-formed enumerator with sequence length [N] and cursor
    [c], [Skip(m)] advances the cursor by exactly [min(m, N - c)],
    returns [S_OK] when that amount is [m] and [S_FALSE] otherwise, so
    never an error code; and from cursor 0 a following [GetCount]
    yields [max(0, N - m)]. *)
Theorem Skip_clamps_to_remaining e (m : Z) (old : Z) :
  Invariant e ->
  is_ULONG m ->
  let N := Count (m_elements e) in
  let c := m_currentElement e in
  let amount := Z.min m (N - c) in
  Skip m e
  = (if decide (amount = m) then S_OK else S_FALSE,
     set_currentElement e (c + amount))
  /\ SUCCEEDED (fst (Skip m e)) = true
  /\ (c = 0 ->
      GetCount (Some old) (snd (Skip m e))
      = (S_OK, Some (Z.max 0 (N - m)), snd (Skip m e))).
Proof.
  intros Hinv Hm.
  pose proof (Invariant_bounds e Hinv) as [Hc Ha].
  unfold is_ULONG, ULONG_MAX in Hm.
  intros N c amount.
  assert (Hskip : Skip m e
                  = (if decide (amount = m) then S_OK else S_FALSE,
                     set_currentElement e (c + amount))).
  { subst N c amount.
    unfold Skip. rewrite (remaining_no_wrap e Hinv), min_spec.
    rewrite (advance_no_wrap e _ Hinv) by lia.
    f_equal.
    destruct (Z.ltb_spec (Z.min m (Count (m_elements e) - m_currentElement e)) m);
      case_decide; done || lia. }
  rewrite Hskip. split_and!; [done|by case_decide|].
  subst N c amount. intros Hzero. unfold GetCount. simpl.
  rewrite to_ULONG_id by (unfold is_ULONG, ULONG_MAX in *; lia).
  repeat f_equal. lia.
Qed.

(** C7.  [GetCount] returns [E_INVALIDARG] when the output slot is
    absent, whatever the enumerator and without changing it; on a
    well-formed enumerator with a slot it returns [S_OK]
    and yields [N - cursor], the number of elements that remain; and an
    enumerator just constructed from a sequence of length [N] yields
    [N]. *)
Theorem GetCount_yields_remaining
    (any : ProfilerEnum Element) e (old : Z)
    (source : list Element) (junk : nat -> Element) :
  Invariant e ->
  Count source <= INT_MAX ->
  GetCount None any = (E_INVALIDARG, None, any)
  /\ GetCount (Some old) e
     = (S_OK, Some (Count (m_elements e) - m_currentElement e), e)
  /\ exists fresh_enum,
       ProfilerEnum_ctor (Some junk) source = Some fresh_enum
       /\ GetCount (Some old) fresh_enum
          = (S_OK, Some (Count source), fresh_enum).
Proof.
  intros Hinv Hsize. split_and!; [done| |].
  - unfold GetCount. by rewrite (remaining_no_wrap e Hinv).
  - exists (mkProfilerEnum 0 source 1).
    split; [by apply ProfilerEnum_ctor_copies|].
    unfold GetCount. simpl. rewrite Z.sub_0_r.
    rewrite to_ULONG_id; [done|].
    unfold is_ULONG, ULONG_MAX, INT_MAX, Count in *. lia.
Qed.

(** *** Every member function keeps the object well formed *)

Lemma AddRef_Invariant e : Invariant e -> Invariant (snd (AddRef e)).
Proof. by intros [Hc Ha]. Qed.

Lemma Release_Invariant e e' :
  Invariant e -> snd (Release e) = Some e' -> Invariant e'.
Proof.
  intros [Hc Ha]. unfold Release.
  destruct (0 =? _); simpl; [done|]. by intros [= <-].
Qed.

Lemma QueryInterface_Invariant (self : loc) (id : IID) (slot : ptr) e :
  Invariant e ->
  Invariant (snd (QueryInterface pEnumInterfaceIID IID_IUnknown self id slot e)).
Proof.
  intros Hinv. unfold QueryInterface.
  repeat case_decide; simpl; auto using AddRef_Invariant.
Qed.

Lemma Next_Invariant (req : Z) (elements : option (list Element))
    (fetched : option Z) e :
  is_ULONG req -> Invariant e -> Invariant (snd (Next req elements fetched e)).
Proof.
  intros Hreq Hinv. unfold is_ULONG, ULONG_MAX in Hreq.
  pose proof (Invariant_bounds e Hinv) as [Hc Ha].
  unfold Next.
  destruct (bool_decide _ && _); [done|].
  destruct (0 =? req); [done|].
  destruct elements as [buffer|]; [|done]. simpl.
  rewrite (remaining_no_wrap e Hinv), min_spec.
  rewrite (advance_no_wrap e _ Hinv) by lia.
  apply Invariant_set_currentElement; [done|lia].
Qed.

Lemma GetCount_Invariant (count : option Z) e :
  Invariant e -> Invariant (snd (GetCount count e)).
Proof. by destruct count. Qed.

Lemma Skip_Invariant (count : Z) e :
  is_ULONG count -> Invariant e -> Invariant (snd (Skip count e)).
Proof.
  intros Hcount Hinv. unfold is_ULONG, ULONG_MAX in Hcount.
  pose proof (Invariant_bounds e Hinv) as [Hc Ha].
  unfold Skip. simpl.
  rewrite (remaining_no_wrap e Hinv), min_spec.
  rewrite (advance_no_wrap e _ Hinv) by lia.
  apply Invariant_set_currentElement; [done|lia].
Qed.

Lemma Reset_Invariant e : Invariant e -> Invariant (snd (Reset e)).
Proof.
  intros Hinv. pose proof (Invariant_bounds e Hinv) as [Hc Ha].
  apply Invariant_set_currentElement; [done|lia].
Qed.

Lemma ProfilerEnum_ctor_Invariant (alloc : option (nat -> Element))
    (elements : list Element) e :
  Count elements <= INT_MAX ->
  ProfilerEnum_ctor alloc elements = Some e ->
  Invariant e.
Proof.
  intros Hsize. destruct alloc as [junk|]; [|done].
  rewrite ProfilerEnum_ctor_copies by done.
  intros [= <-]. by apply Invariant_fresh.
Qed.

(** What a [Clone] call can allocate. *)
Lemma Clone_created (pInterface : option ptr) (env : NewOutcome Element)
    e (hr : HRESULT) (slot : option ptr) (l : loc) e' this' :
  Clone pInterface env e = (hr, slot, Some (l, e'), this') ->
  new_object env = Some l
  /\ ProfilerEnum_ctor (new_block env) (m_elements e) = Some e'
  /\ this' = e.
Proof.
  unfold Clone, new_ProfilerEnum.
  destruct pInterface; [|done].
  destruct (new_object env); [|done].
  destruct (ProfilerEnum_ctor _ _); [|done].
  by intros [= _ _ <- <- <-].
Qed.

Lemma Clone_this (pInterface : option ptr) (env : NewOutcome Element) e :
  snd (Clone pInterface env e) = e.
Proof.
  unfold Clone.
  destruct pInterface; [|done].
  by destruct (new_ProfilerEnum _ _) as [[??]|].
Qed.

(** *** The heap *)

Lemma exec_Invariant (c : Call Element IID) (self : loc) (h : gmap loc (ProfilerEnum Element)) :
  valid_call c ->
  map_Forall (fun _ e => Invariant e) h ->
  map_Forall (fun _ e => Invariant e) (exec pEnumInterfaceIID IID_IUnknown c self h).
Proof.
  intros Hvalid Hall. unfold exec.
  destruct (h !! self) as [this|] eqn:Hself; [|done].
  pose proof (map_Forall_lookup_1 _ _ _ _ Hall Hself) as Hinv. simpl in Hinv.
  destruct c; simpl in Hvalid.
  - apply map_Forall_insert_2; auto using QueryInterface_Invariant.
  - apply map_Forall_insert_2; auto using AddRef_Invariant.
  - destruct (snd (Release this)) as [this'|] eqn:Hrel.
    + apply map_Forall_insert_2; eauto using Release_Invariant.
    + by apply map_Forall_delete.
  - apply map_Forall_insert_2; auto using Next_Invariant.
  - apply map_Forall_insert_2; auto using GetCount_Invariant.
  - apply map_Forall_insert_2; auto using Skip_Invariant.
  - apply map_Forall_insert_2; auto using Reset_Invariant.
  - destruct (Clone _ _ _) as [[[hr slot] created] this'] eqn:Hclone.
    pose proof (f_equal snd Hclone) as Hthis.
    rewrite Clone_this in Hthis. simpl in Hthis. subst this'.
    destruct created as [[l e']|].
    + apply Clone_created in Hclone as (_ & Hctor & _).
      apply map_Forall_insert_2; [|by apply map_Forall_insert_2].
      eapply ProfilerEnum_ctor_Invariant; [|done]. apply Hinv.
    + by apply map_Forall_insert_2.
Qed.

(** A call on one object leaves every other live object as it was. *)
Lemma exec_frame (c : Call Element IID) (self l : loc) (h : gmap loc (ProfilerEnum Element)) :
  l <> self ->
  is_Some (h !! l) ->
  exec pEnumInterfaceIID IID_IUnknown c self h !! l = h !! l.
Proof.
  intros Hne Hlive. unfold exec.
  destruct (h !! self) as [this|] eqn:Hself; [|done].
  destruct c; rewrite ?lookup_insert_ne by done; try done.
  - destruct (snd (Release this)).
    + by rewrite lookup_insert_ne.
    + by rewrite lookup_delete_ne.
  - destruct (Clone _ _ _) as [[[hr slot] created] this'] eqn:Hclone.
    destruct created as [[l' e']|]; [|by rewrite lookup_insert_ne].
    apply Clone_created in Hclone as (Hnew & _ & _). simpl in Hnew.
    unfold operator_new in Hnew. destruct new_succeeds; [|done].
    injection Hnew as <-.
    rewrite !lookup_insert_ne; [done|done|].
    intros <-. apply (is_fresh (dom h)). by apply elem_of_dom.
Qed.

Lemma run_frame (cs : list (Call Element IID)) (self l : loc) :
  forall h : gmap loc (ProfilerEnum Element),
    l <> self ->
    is_Some (h !! l) ->
    run pEnumInterfaceIID IID_IUnknown (calls_on self cs) h !! l = h !! l.
Proof.
  induction cs as [|c cs IH]; intros h Hne Hlive; [done|].
  change (run pEnumInterfaceIID IID_IUnknown (calls_on self (c :: cs)) h)
    with (run pEnumInterfaceIID IID_IUnknown (calls_on self cs)
            (exec pEnumInterfaceIID IID_IUnknown c self h)).
  rewrite IH; [|done|].
  - by apply exec_frame.
  - by rewrite exec_frame.
Qed.

Lemma run_Invariant (trace : list (loc * Call Element IID)) :
  forall h : gmap loc (ProfilerEnum Element),
    Forall (fun call => valid_call (snd call)) trace ->
    map_Forall (fun _ e => Invariant e) h ->
    map_Forall (fun _ e => Invariant e)
               (run pEnumInterfaceIID IID_IUnknown trace h).
Proof.
  induction trace as [|[l c] trace IH]; intros h Hvalid Hall; [done|].
  inversion_clear Hvalid as [|?? Hc Hrest].
  change (run pEnumInterfaceIID IID_IUnknown ((l, c) :: trace) h)
    with (run pEnumInterfaceIID IID_IUnknown trace
            (exec pEnumInterfaceIID IID_IUnknown c l h)).
  apply IH; [done|]. by apply exec_Invariant.
Qed.

(** C2 (as amended).  The capability query succeeds exactly when the
    identifier is the enumerator's own or the universal base one: it
    then returns [S_OK], hands out a pointer to the enumerator and adds
    one to the reference count.  For every other identifier it returns
    [E_NOINTERFACE], leaves the enumerator as it was and sets the
    caller's output slot to [NULL]. *)
Theorem QueryInterface_succeeds_iff_own_or_base
    (self : loc) (id : IID) (slot : ptr) e :
  is_LONG (m_refCount e) ->
  m_refCount e < INT_MAX ->
  QueryInterface pEnumInterfaceIID IID_IUnknown self id slot e
  = if decide (id = pEnumInterfaceIID \/ id = IID_IUnknown)
    then (S_OK, Some self, set_refCount e (m_refCount e + 1))
    else (E_NOINTERFACE, None, e).
Proof.
  intros Hlong Hmax. unfold QueryInterface, AddRef, InterlockedIncrement.
  rewrite to_LONG_id by (unfold is_LONG in *; lia).
  destruct (decide (pEnumInterfaceIID = id)) as [Hown|Hown].
  { rewrite decide_True; [done|by left]. }
  destruct (decide (IID_IUnknown = id)) as [Hbase|Hbase].
  { rewrite decide_True; [done|by right]. }
  rewrite decide_False; [done|].
  intros [Heq|Heq]; congruence.
Qed.

(** C3.  [Clone] with a handle slot and an allocator that does not throw,
    at any cursor position of an enumerator over a sequence of length
    [N]: it returns [S_OK] and a pointer to a new object, at an address
    other than the source's, whose backing sequence is the whole
    sequence of the source, whose cursor is 0 and whose reference count
    is 1, so that its [GetCount] yields [N]; the source is as it was;
    and whatever calls follow on the clone leave the source as it is,
    and whatever calls follow on the source leave the clone as it is. *)
Theorem Clone_is_an_independent_copy_of_the_whole_sequence
    (h : gmap loc (ProfilerEnum Element)) (self : loc) e
    (slot : ptr) (junk : nat -> Element) (old : Z)
    (cs : list (Call Element IID)) :
  h !! self = Some e ->
  array_in_range e ->
  let clone_addr := fresh (dom h) in
  let clone := mkProfilerEnum 0 (m_elements e) 1 in
  let h' := exec pEnumInterfaceIID IID_IUnknown
                 (CallClone (Some slot) true (Some junk)) self h in
  Clone (Some slot) (mkNewOutcome (operator_new true h) (Some junk)) e
  = (S_OK, Some (Some clone_addr), Some (clone_addr, clone), e)
  /\ clone_addr <> self
  /\ h' !! clone_addr = Some clone
  /\ h' !! self = Some e
  /\ GetCount (Some old) clone = (S_OK, Some (Count (m_elements e)), clone)
  /\ run pEnumInterfaceIID IID_IUnknown (calls_on clone_addr cs) h' !! self
     = Some e
  /\ run pEnumInterfaceIID IID_IUnknown (calls_on self cs) h' !! clone_addr
     = Some clone.
Proof.
  intros Hself Hsize clone_addr clone h'.
  assert (Hclone :
    Clone (Some slot) (mkNewOutcome (operator_new true h) (Some junk)) e
    = (S_OK, Some (Some clone_addr), Some (clone_addr, clone), e)).
  { unfold Clone, new_ProfilerEnum, operator_new.
    cbn [new_object new_block].
    by rewrite (ProfilerEnum_ctor_copies junk (m_elements e) Hsize). }
  assert (Hne : clone_addr <> self).
  { intros Heq. apply (is_fresh (dom h)). fold clone_addr. rewrite Heq.
    by eapply elem_of_dom_2. }
  assert (Hh' : h' = <[clone_addr := clone]> (<[self := e]> h)).
  { unfold h', exec. by rewrite Hself, Hclone. }
  assert (Hc' : h' !! clone_addr = Some clone)
    by (by rewrite Hh', lookup_insert_eq).
  assert (Hs' : h' !! self = Some e)
    by (by rewrite Hh', lookup_insert_ne, lookup_insert_eq).
  split_and!; try done.
  - unfold GetCount, clone. simpl. rewrite Z.sub_0_r, to_ULONG_id; [done|].
    unfold array_in_range, is_ULONG, ULONG_MAX, INT_MAX, Count in *. lia.
  - rewrite run_frame; [done|done|by rewrite Hs'].
  - rewrite run_frame; [done|done|by rewrite Hc'].
Qed.

(** C9.  The cursor never exceeds the length of the backing sequence:
    both constructors establish [0 <= cursor <= N], and every sequence
    of calls of the protocol ([QueryInterface], [AddRef], [Release],
    [Next], [GetCount], [Skip], [Reset], [Clone]), on whatever objects
    and with whatever arguments, keeps it for every live object. *)
Theorem cursor_never_exceeds_sequence_length
    (alloc : option (nat -> Element)) (source : list Element)
    (trace : list (loc * Call Element IID))
    (h : gmap loc (ProfilerEnum Element)) :
  Count source <= INT_MAX ->
  Forall (fun call => valid_call (snd call)) trace ->
  map_Forall (fun _ e => Invariant e) h ->
  cursor_in_range (ProfilerEnum_ctor0 (Element := Element))
  /\ (forall e, ProfilerEnum_ctor alloc source = Some e -> cursor_in_range e)
  /\ map_Forall
       (fun _ e => 0 <= m_currentElement e <= Count (m_elements e))
       (run pEnumInterfaceIID IID_IUnknown trace h).
Proof.
  intros Hsize Hvalid Hall. split_and!.
  - done.
  - intros e He. by apply (ProfilerEnum_ctor_Invariant alloc source).
  - intros l e He.
    by apply (run_Invariant trace h Hvalid Hall l e He).
Qed.

(** C10.  Whatever the state of the enumerator, [Clone] without a handle
    slot returns [E_INVALIDARG], whatever the allocator would have done,
    allocates no object and leaves the source, and with it the whole
    heap, as it was. *)
Theorem Clone_without_handle_slot_is_invalid
    e (env : NewOutcome Element) (h : gmap loc (ProfilerEnum Element))
    (self : loc) (new_succeeds : bool) (block : option (nat -> Element)) :
  Clone None env e = (E_INVALIDARG, None, None, e)
  /\ exec pEnumInterfaceIID IID_IUnknown
          (CallClone None new_succeeds block) self h = h.
Proof.
  split; [done|]. unfold exec.
  destruct (h !! self) as [this|] eqn:Hself; [|done].
  simpl. by apply insert_id.
Qed.

End Properties.

(** * The properties at work on [ProfilerObjectEnum] *)

Lemma sample_enum_Invariant (cursor : Z) :
  0 <= cursor <= 5 -> Invariant (sample_enum cursor).
Proof.
  intros Hc. unfold Invariant, cursor_in_range, array_in_range, INT_MAX, Count.
  simpl. lia.
Defined.

(** The scenario of the specification: from [A,B,C,D,E], [Next(3)]
    fetches [A,B,C] and is fully satisfied, [Next(10)] then fetches [D,E]
    and is partially satisfied, and [Next(1)] then fetches nothing and is
    partially satisfied, the cursor staying at 5. *)
Example scenario_Next_3 :
  Next 3 (Some (sample_buffer 3)) (Some 0) (sample_enum 0)
  = (S_OK, Some [65; 66; 67], Some 3, sample_enum 3).
Proof. reflexivity. Qed.

Example scenario_Next_10 :
  Next 10 (Some (sample_buffer 10)) (Some 0) (sample_enum 3)
  = (S_FALSE, Some ([68; 69] ++ sample_buffer 8), Some 2, sample_enum 5).
Proof. reflexivity. Qed.

Example scenario_Next_1 :
  Next 1 (Some (sample_buffer 1)) (Some 0) (sample_enum 5)
  = (S_FALSE, Some (sample_buffer 1), Some 0, sample_enum 5).
Proof. reflexivity. Qed.

(** [Next(1)] without a fetched-count slot advances by one item. *)
Example Next_one_without_fetched_slot :
  Next 1 (Some (sample_buffer 1)) None (sample_enum 4)
  = (S_OK, Some [69], None, sample_enum 5).
Proof. reflexivity. Qed.

(** [Next] with a positive request and no buffer is an invalid call. *)
Example Next_without_buffer :
  Next 2 None (Some 0) (sample_enum 0) = (E_INVALIDARG, None, Some 0, sample_enum 0).
Proof. reflexivity. Qed.

(** [Reset] after [Skip] restores [GetCount() == N]. *)
Example Reset_restores_count :
  GetCount (Some 0) (snd (Reset (snd (Skip 4 (sample_enum 0)))))
  = (S_OK, Some 5, sample_enum 0).
Proof. reflexivity. Qed.

(** The last reference released destroys the object. *)
Example Release_last_reference :
  Release (sample_enum 2) = (0, None).
Proof. reflexivity. Qed.

(** A throwing allocator makes [Clone] fail and clear the handle slot. *)
Example Clone_out_of_memory :
  Clone (Some (Some 9%positive)) (mkNewOutcome (Some 2%positive) None) (sample_enum 2)
  = (E_OUTOFMEMORY, Some None, None, sample_enum 2).
Proof. reflexivity. Qed.

(** C1 at work: a request of 10 at cursor 3 of 5. *)
Lemma Next_copies_min_of_requested_and_remaining_witness :
  Invariant (sample_enum 3)
  /\ 0 < 10
  /\ is_ULONG 10
  /\ Next 10 (Some (sample_buffer 4)) (Some 7) (sample_enum 3)
     = (S_FALSE, Some [68; 69; 0; 0], Some 2, sample_enum 5).
Proof.
  split_and!;
    [exact (sample_enum_Invariant 3 ltac:(lia)) | lia | by compute |].
  exact (proj1 (Next_copies_min_of_requested_and_remaining
                  (sample_enum 3) 10 (sample_buffer 4) 7
                  (sample_enum_Invariant 3 ltac:(lia))
                  ltac:(lia)
                  ltac:(by compute)
                  ltac:(by compute))).
Defined.

(** C2: an identifier that is neither the enumerator's own nor the base
    one.  The caller's slot held a pointer before the call and holds
    [NULL] after it, so it has not been left untouched. *)
Lemma QueryInterface_unsupported_overwrites_slot :
  sample_IID_other <> sample_IID_ICorProfilerObjectEnum
  /\ sample_IID_other <> sample_IID_IUnknown
  /\ fst (fst (QueryInterface sample_IID_ICorProfilerObjectEnum sample_IID_IUnknown
                  1%positive sample_IID_other (Some 9%positive) (sample_enum 2)))
     = E_NOINTERFACE
  /\ snd (fst (QueryInterface sample_IID_ICorProfilerObjectEnum sample_IID_IUnknown
                  1%positive sample_IID_other (Some 9%positive) (sample_enum 2)))
     <> Some 9%positive.
Proof. by split_and!. Qed.

(** C2 (as amended) at work: the enumerator's own identifier, then another. *)
Lemma QueryInterface_succeeds_iff_own_or_base_witness :
  is_LONG 1
  /\ 1 < INT_MAX
  /\ QueryInterface sample_IID_ICorProfilerObjectEnum sample_IID_IUnknown
       1%positive sample_IID_ICorProfilerObjectEnum (Some 9%positive) (sample_enum 2)
     = (S_OK, Some 1%positive, mkProfilerEnum 2 sample_elements 2)
  /\ QueryInterface sample_IID_ICorProfilerObjectEnum sample_IID_IUnknown
       1%positive sample_IID_other (Some 9%positive) (sample_enum 2)
     = (E_NOINTERFACE, None, sample_enum 2).
Proof.
  split_and!; [by compute | by compute | |].
  - exact (QueryInterface_succeeds_iff_own_or_base
             sample_IID_ICorProfilerObjectEnum sample_IID_IUnknown
             1%positive sample_IID_ICorProfilerObjectEnum (Some 9%positive)
             (sample_enum 2) ltac:(by compute) ltac:(by compute)).
  - exact (QueryInterface_succeeds_iff_own_or_base
             sample_IID_ICorProfilerObjectEnum sample_IID_IUnknown
             1%positive sample_IID_other (Some 9%positive)
             (sample_enum 2) ltac:(by compute) ltac:(by compute)).
Defined.

(** C4 at work: [A,B,C,D,E] split after two elements. *)
Lemma Next_split_yields_the_same_as_one_call_witness :
  Invariant (sample_enum 0)
  /\ 0 <= 2 <= Count sample_elements
  /\ fetched_elements (Next 2 (Some (sample_buffer 2)) (Some 0) (sample_enum 0))
     ++ fetched_elements
          (Next 3 (Some (sample_buffer 3)) (Some 0)
                (snd (Next 2 (Some (sample_buffer 2)) (Some 0) (sample_enum 0))))
     = fetched_elements (Next 5 (Some (sample_buffer 5)) (Some 0) (sample_enum 0)).
Proof.
  split_and!;
    [exact (sample_enum_Invariant 0 ltac:(lia)) | by compute | by compute |].
  exact (proj1 (Next_split_yields_the_same_as_one_call
                  (sample_enum 0) 2
                  (sample_buffer 2) (sample_buffer 3) (sample_buffer 5) 0 0 0
                  (sample_enum_Invariant 0 ltac:(lia))
                  eq_refl
                  ltac:(by compute) ltac:(by compute)
                  ltac:(by compute) ltac:(by compute))).
Defined.

(** C5 at work: two elements asked for, nowhere to report the count. *)
Lemma Next_many_without_fetched_slot_is_invalid_witness :
  1 < 2
  /\ Next 2 (Some (sample_buffer 2)) None (sample_enum 1)
     = (E_INVALIDARG, Some (sample_buffer 2), None, sample_enum 1).
Proof.
  split; [lia|].
  exact (Next_many_without_fetched_slot_is_invalid
           (sample_enum 1) 2 (Some (sample_buffer 2)) ltac:(lia)).
Defined.

(** C6 at work: skipping 7 of 5 elements. *)
Lemma Skip_clamps_to_remaining_witness :
  Invariant (sample_enum 0)
  /\ is_ULONG 7
  /\ Skip 7 (sample_enum 0) = (S_FALSE, sample_enum 5)
  /\ GetCount (Some 0) (snd (Skip 7 (sample_enum 0)))
     = (S_OK, Some 0, sample_enum 5).
Proof.
  pose proof (Skip_clamps_to_remaining (sample_enum 0) 7 0
                (sample_enum_Invariant 0 ltac:(lia)) ltac:(by compute))
    as (Hskip & _ & Hcount).
  split_and!; [exact (sample_enum_Invariant 0 ltac:(lia)) | by compute | |].
  - exact Hskip.
  - exact (Hcount eq_refl).
Defined.

(** C7 at work: three elements remain at cursor 2 of 5, and five in an
    enumerator just constructed. *)
Lemma GetCount_yields_remaining_witness :
  Invariant (sample_enum 2)
  /\ Count sample_elements <= INT_MAX
  /\ GetCount None (sample_enum 9) = (E_INVALIDARG, None, sample_enum 9)
  /\ GetCount (Some 0) (sample_enum 2) = (S_OK, Some 3, sample_enum 2)
  /\ exists fresh_enum,
       ProfilerEnum_ctor (Some (fun _ => 0)) sample_elements = Some fresh_enum
       /\ GetCount (Some 0) fresh_enum = (S_OK, Some 5, fresh_enum).
Proof.
  split_and!; [exact (sample_enum_Invariant 2 ltac:(lia)) | by compute |..];
    apply (GetCount_yields_remaining
             (sample_enum 9) (sample_enum 2) 0 sample_elements (fun _ => 0)
             (sample_enum_Invariant 2 ltac:(lia)) ltac:(by compute)).
Defined.

(** C3 at work: a clone taken at cursor 2 of 5 starts over with all five
    elements, and neither object sees the calls made on the other. *)
Lemma Clone_is_an_independent_copy_of_the_whole_sequence_witness :
  sample_heap !! 1%positive = Some (sample_enum 2)
  /\ array_in_range (sample_enum 2)
  /\ fresh (dom sample_heap) <> 1%positive
  /\ exec sample_IID_ICorProfilerObjectEnum sample_IID_IUnknown
          (CallClone (Some None) true (Some (fun _ => 0))) 1%positive sample_heap
       !! fresh (dom sample_heap)
     = Some (mkProfilerEnum 0 sample_elements 1)
  /\ GetCount (Some 0) (mkProfilerEnum 0 sample_elements 1)
     = (S_OK, Some 5, mkProfilerEnum 0 sample_elements 1)
  /\ run sample_IID_ICorProfilerObjectEnum sample_IID_IUnknown
         (calls_on (fresh (dom sample_heap)) sample_calls)
         (exec sample_IID_ICorProfilerObjectEnum sample_IID_IUnknown
               (CallClone (Some None) true (Some (fun _ => 0))) 1%positive
               sample_heap)
       !! 1%positive
     = Some (sample_enum 2)
  /\ run sample_IID_ICorProfilerObjectEnum sample_IID_IUnknown
         (calls_on 1%positive sample_calls)
         (exec sample_IID_ICorProfilerObjectEnum sample_IID_IUnknown
               (CallClone (Some None) true (Some (fun _ => 0))) 1%positive
               sample_heap)
       !! fresh (dom sample_heap)
     = Some (mkProfilerEnum 0 sample_elements 1).
Proof.
  pose proof (Clone_is_an_independent_copy_of_the_whole_sequence
                sample_IID_ICorProfilerObjectEnum sample_IID_IUnknown
                sample_heap 1%positive (sample_enum 2) None (fun _ => 0) 0
                sample_calls eq_refl ltac:(by compute))
    as (_ & Hne & Hclone & _ & Hcount & Hsource & Hcopy).
  split_and!; [reflexivity | by compute | exact Hne | exact Hclone
              | exact Hcount | exact Hsource | exact Hcopy].
Defined.

(** C9 at work: over-large [Next] and [Skip] requests, a [Reset], a
    [Clone] and the last [Release], all on the one object of the heap. *)
Lemma cursor_never_exceeds_sequence_length_witness :
  Count sample_elements <= INT_MAX
  /\ Forall (fun call => valid_call (snd call)) (calls_on 1%positive sample_calls)
  /\ map_Forall (fun _ e => Invariant e) sample_heap
  /\ cursor_in_range (mkProfilerEnum 0 sample_elements 1)
  /\ map_Forall
       (fun _ e => 0 <= m_currentElement e <= Count (m_elements e))
       (run sample_IID_ICorProfilerObjectEnum sample_IID_IUnknown
            (calls_on 1%positive sample_calls) sample_heap).
Proof.
  assert (Hsize : Count sample_elements <= INT_MAX) by (by compute).
  assert (Hvalid : Forall (fun call : loc * Call ObjectID Z => valid_call (snd call))
                          (calls_on 1%positive sample_calls))
    by (repeat constructor; by compute).
  assert (Hheap : map_Forall (fun _ e => Invariant e) sample_heap)
    by (apply map_Forall_singleton; exact (sample_enum_Invariant 2 ltac:(lia))).
  pose proof (cursor_never_exceeds_sequence_length
                sample_IID_ICorProfilerObjectEnum sample_IID_IUnknown
                (Some (fun _ => 0)) sample_elements
                (calls_on 1%positive sample_calls) sample_heap
                Hsize Hvalid Hheap)
    as (_ & Hctor & Hrun).
  split_and!; [exact Hsize | exact Hvalid | exact Hheap | | exact Hrun].
  exact (Hctor (mkProfilerEnum 0 sample_elements 1) eq_refl).
Defined.

(** * Further properties of the member functions *)

Section FurtherProperties.

Context {Element : Type}.
Context {IID : Type} `{!EqDecision IID}.
Variable pEnumInterfaceIID : IID.
Variable IID_IUnknown : IID.

Implicit Types (this e : ProfilerEnum Element) (buffer : list Element).

(** *** Shared lemmas *)

Lemma Skip_result e (m : Z) :
  Invariant e ->
  is_ULONG m ->
  Skip m e
  = (if decide (Z.min m (Count (m_elements e) - m_currentElement e) = m)
     then S_OK else S_FALSE,
     set_currentElement e
       (m_currentElement e
        + Z.min m (Count (m_elements e) - m_currentElement e))).
Proof.
  intros Hinv Hm. unfold is_ULONG, ULONG_MAX in Hm.
  pose proof (Invariant_bounds e Hinv) as [Hc Ha].
  unfold Skip. rewrite (remaining_no_wrap e Hinv), min_spec.
  rewrite (advance_no_wrap e _ Hinv) by lia.
  f_equal.
  destruct (Z.ltb_spec (Z.min m (Count (m_elements e) - m_currentElement e)) m);
    case_decide; done || lia.
Qed.

Lemma set_currentElement_same e : set_currentElement e (m_currentElement e) = e.
Proof. by destruct e. Qed.

Lemma decrement_no_wrap (r : Z) :
  1 <= r <= INT_MAX ->
  to_ULONG (InterlockedDecrement r) = r - 1 /\ InterlockedDecrement r = r - 1.
Proof.
  intros Hr. unfold InterlockedDecrement, INT_MAX in *.
  rewrite to_LONG_id by (unfold is_LONG, INT_MAX; lia).
  split; [|done]. apply to_ULONG_id. unfold is_ULONG, ULONG_MAX. lia.
Qed.

(** *** Next: the corner cases *)

(** X1.  [Next] with a request other than zero and no buffer returns
    [E_INVALIDARG], whatever the state of the enumerator and whether or
    not there is a fetched-count slot; nothing is written and the
    enumerator is as before. *)
Theorem Next_without_buffer_is_invalid
    e (requestedCount : Z) (elementsFetched : option Z) :
  requestedCount <> 0 ->
  Next requestedCount None elementsFetched e
  = (E_INVALIDARG, None, elementsFetched, e).
Proof.
  intros Hreq. unfold Next.
  destruct (bool_decide _ && _); [done|].
  by destruct (Z.eqb_spec 0 requestedCount); [lia|].
Qed.

(** X2.  [Next] fails only with [E_INVALIDARG], only for one of its two
    argument errors (more than one element asked for without a
    fetched-count slot, or elements asked for without a buffer), and a
    failed call writes nothing: buffer, fetched-count slot and enumerator
    are returned as they were passed. *)
Theorem Next_failure_changes_nothing
    e (requestedCount : Z) (elements : option (list Element))
    (elementsFetched : option Z) :
  SUCCEEDED (fst (fst (fst (Next requestedCount elements elementsFetched e))))
    = false ->
  Next requestedCount elements elementsFetched e
  = (E_INVALIDARG, elements, elementsFetched, e)
  /\ ((elementsFetched = None /\ 1 < requestedCount)
      \/ (requestedCount <> 0 /\ elements = None)).
Proof.
  unfold Next.
  destruct elementsFetched as [old|]; simpl bool_decide; simpl andb.
  - destruct (Z.eqb_spec 0 requestedCount) as [Hz|Hnz]; [done|].
    destruct elements as [buffer|]; simpl.
    + by destruct (_ <? _).
    + intros _. split; [done|]. right. split; [lia|done].
  - destruct (Z.ltb_spec 1 requestedCount) as [Hmany|Hfew].
    + intros _. split; [done|]. by left.
    + destruct (Z.eqb_spec 0 requestedCount) as [Hz|Hnz]; [done|].
      destruct elements as [buffer|]; simpl.
      * by destruct (_ <? _).
      * intros _. split; [done|]. right. split; [lia|done].
Qed.

(** X3.  The note in the source: with a request of one and no
    fetched-count slot, a well-formed enumerator tries to advance one
    item.  If an element is left, it is stored in the first slot of the
    buffer, the cursor moves by one and the result is [S_OK]; at the end
    the result is [S_FALSE] and buffer and enumerator stay as they are. *)
Theorem Next_one_without_fetched_slot_advances_one_item e buffer :
  Invariant e ->
  (1 <= length buffer)%nat ->
  Next 1 (Some buffer) None e
  = match m_elements e !! Z.to_nat (m_currentElement e) with
    | Some x =>
        (S_OK, Some (<[0%nat := x]> buffer), None,
         set_currentElement e (m_currentElement e + 1))
    | None => (S_FALSE, Some buffer, None, e)
    end.
Proof.
  intros Hinv Hroom.
  pose proof (Invariant_bounds e Hinv) as [Hc Ha].
  rewrite Next_copy;
    [|done|lia|by compute|done|lia].
  destruct (m_elements e !! Z.to_nat (m_currentElement e)) as [x|] eqn:Hx.
  - assert (Hlt : m_currentElement e < Count (m_elements e)).
    { apply lookup_lt_Some in Hx. unfold Count. lia. }
    replace (Z.min 1 (Count (m_elements e) - m_currentElement e)) with 1 by lia.
    rewrite decide_True by done. simpl out_write.
    change (Z.to_nat 1) with 1%nat.
    rewrite (drop_S _ x _ Hx).
    destruct buffer as [|b buffer]; [simpl in Hroom; lia|].
    reflexivity.
  - assert (Hend : m_currentElement e = Count (m_elements e)).
    { apply lookup_ge_None in Hx. unfold Count in *. lia. }
    replace (Z.min 1 (Count (m_elements e) - m_currentElement e)) with 0 by lia.
    rewrite decide_False by lia.
    rewrite take_0, drop_0, Z.add_0_r, set_currentElement_same. done.
Qed.

(** *** Lifetime *)

(** X4.  On an enumerator with a positive reference count, [Release]
    returns the count that remains, and destroys the object exactly when
    that count is zero; otherwise only the reference count changes. *)
Theorem Release_destroys_exactly_at_zero e :
  1 <= m_refCount e <= INT_MAX ->
  Release e
  = (m_refCount e - 1,
     if decide (m_refCount e = 1) then None
     else Some (set_refCount e (m_refCount e - 1))).
Proof.
  intros Hr. unfold Release.
  destruct (decrement_no_wrap (m_refCount e) Hr) as [-> ->].
  destruct (Z.eqb_spec 0 (m_refCount e - 1)); case_decide; done || lia.
Qed.

(** X5.  A reference taken and given back leaves the enumerator as it
    was: after [AddRef], which returns the count plus one, or after a
    successful [QueryInterface], [Release] returns the former count and
    the former object, which is not destroyed. *)
Theorem reference_taken_and_released_restores_the_object
    (self : loc) (id : IID) (slot : ptr) e :
  1 <= m_refCount e < INT_MAX ->
  id = pEnumInterfaceIID \/ id = IID_IUnknown ->
  fst (AddRef e) = m_refCount e + 1
  /\ Release (snd (AddRef e)) = (m_refCount e, Some e)
  /\ Release (snd (QueryInterface pEnumInterfaceIID IID_IUnknown self id slot e))
     = (m_refCount e, Some e).
Proof.
  intros Hr Hid.
  assert (Hinc : InterlockedIncrement (m_refCount e) = m_refCount e + 1).
  { unfold InterlockedIncrement. apply to_LONG_id.
    unfold is_LONG, INT_MAX in *. lia. }
  assert (Hrel : Release (snd (AddRef e)) = (m_refCount e, Some e)).
  { unfold AddRef. cbn [snd]. rewrite Hinc. unfold Release.
    change (m_refCount (set_refCount e (m_refCount e + 1)))
      with (m_refCount e + 1).
    destruct (decrement_no_wrap (m_refCount e + 1) ltac:(lia)) as [-> ->].
    replace (m_refCount e + 1 - 1) with (m_refCount e) by lia.
    destruct (Z.eqb_spec 0 (m_refCount e)); [lia|].
    by destruct e. }
  split_and!.
  - unfold AddRef. cbn [fst]. rewrite Hinc. apply to_ULONG_id.
    unfold is_ULONG, ULONG_MAX, INT_MAX in *. lia.
  - exact Hrel.
  - unfold QueryInterface.
    destruct (decide (pEnumInterfaceIID = id)); [exact Hrel|].
    destruct (decide (IID_IUnknown = id)); [exact Hrel|].
    destruct Hid; congruence.
Qed.

(** *** Clone when memory runs out *)

(** X6.  When either allocation of [new ProfilerEnum(&m_elements)]
    throws, [Clone] with a handle slot returns [E_OUTOFMEMORY], sets the
    slot to [NULL], creates no object and leaves the source enumerator,
    and the whole heap, as it was. *)
Theorem Clone_out_of_memory_clears_the_handle
    (h : gmap loc (ProfilerEnum Element)) (self : loc) e (slot : ptr)
    (new_succeeds : bool) (block : option (nat -> Element)) :
  new_succeeds = false \/ block = None ->
  Clone (Some slot) (mkNewOutcome (operator_new new_succeeds h) block) e
  = (E_OUTOFMEMORY, Some None, None, e)
  /\ exec pEnumInterfaceIID IID_IUnknown
          (CallClone (Some slot) new_succeeds block) self h
     = h.
Proof.
  intros Hthrow.
  assert (Hclone : forall this : ProfilerEnum Element,
    Clone (Some slot) (mkNewOutcome (operator_new new_succeeds h) block) this
    = (E_OUTOFMEMORY, Some None, None, this)).
  { intros this. unfold Clone, new_ProfilerEnum, operator_new.
    cbn [new_object new_block].
    destruct Hthrow as [-> | ->]; [done|].
    by destruct new_succeeds. }
  split; [apply Hclone|].
  unfold exec. destruct (h !! self) as [this|] eqn:Hself; [|done].
  rewrite Hclone. by apply insert_id.
Qed.

(** *** Skip, GetCount and Reset together with Next *)

Lemma Next_all_from_start e buffer (old : Z) :
  array_in_range e ->
  m_currentElement e = 0 ->
  Count (m_elements e) <= Z.of_nat (length buffer) ->
  Next (Count (m_elements e)) (Some buffer) (Some old) e
  = (S_OK,
     Some (m_elements e ++ drop (length (m_elements e)) buffer),
     Some (Count (m_elements e)),
     set_currentElement e (Count (m_elements e))).
Proof.
  intros Hsize Hzero Hroom.
  assert (Hinv : Invariant e).
  { split; [|done]. unfold cursor_in_range, Count. rewrite Hzero. lia. }
  destruct (m_elements e) as [|x l] eqn:Hel.
  - assert (Hs : set_currentElement e 0 = e)
      by (rewrite <- Hzero; apply set_currentElement_same).
    unfold Count. cbn [length]. change (Z.of_nat 0) with 0.
    rewrite Hs. by unfold Next.
  - rewrite <- Hel in *.
    assert (Hpos : 0 < Count (m_elements e))
      by (rewrite Hel; unfold Count; simpl; lia).
    rewrite Next_copy; [|done|done| |done|lia].
    + rewrite Hzero, Z.sub_0_r, Z.min_id, Z.add_0_l, drop_0.
      rewrite decide_True by done.
      unfold Count. rewrite Nat2Z.id, firstn_all. done.
    + unfold array_in_range, is_ULONG, ULONG_MAX, INT_MAX in *. lia.
Qed.

(** X7.  [Skip(count)] is [Next(count)] without the copying: on a
    well-formed enumerator it returns the result code, and leaves the
    enumerator in the state, that [Next(count)] with a buffer and a
    fetched-count slot does. *)
Theorem Skip_agrees_with_Next e (count : Z) buffer (old : Z) :
  Invariant e ->
  is_ULONG count ->
  Z.min count (Count (m_elements e) - m_currentElement e)
    <= Z.of_nat (length buffer) ->
  Skip count e
  = (fst (fst (fst (Next count (Some buffer) (Some old) e))),
     snd (Next count (Some buffer) (Some old) e)).
Proof.
  intros Hinv Hcount Hroom.
  pose proof (Invariant_bounds e Hinv) as [Hc Ha].
  rewrite (Skip_result e count Hinv Hcount).
  destruct (decide (count = 0)) as [->|Hne].
  - replace (Z.min 0 (Count (m_elements e) - m_currentElement e)) with 0 by lia.
    unfold Next. simpl. by rewrite Z.add_0_r, set_currentElement_same.
  - rewrite Next_copy; [done|done| |done|done|done].
    unfold is_ULONG in Hcount. lia.
Qed.

(** X8.  The remark in the source on the missing out-parameter of [Skip]:
    the number of elements actually skipped is the difference of
    [GetCount] before and after the call, it is [min(count, remaining)],
    and [Skip] returns [S_OK] exactly when it is [count]. *)
Theorem GetCount_around_Skip_gives_the_elements_skipped
    e (count : Z) (old1 old2 : Z) :
  Invariant e ->
  is_ULONG count ->
  exists before after : Z,
    GetCount (Some old1) e = (S_OK, Some before, e)
    /\ GetCount (Some old2) (snd (Skip count e))
       = (S_OK, Some after, snd (Skip count e))
    /\ before - after = Z.min count before
    /\ m_currentElement (snd (Skip count e))
       = m_currentElement e + (before - after)
    /\ (fst (Skip count e) = S_OK <-> before - after = count).
Proof.
  intros Hinv Hcount.
  pose proof (Invariant_bounds e Hinv) as [Hc Ha].
  unfold is_ULONG, ULONG_MAX in Hcount.
  set (remaining := Count (m_elements e) - m_currentElement e).
  exists remaining, (remaining - Z.min count remaining).
  assert (Hinv' : Invariant (snd (Skip count e)))
    by (by apply Skip_Invariant).
  unfold GetCount.
  rewrite (remaining_no_wrap _ Hinv), (remaining_no_wrap _ Hinv').
  rewrite (Skip_result e count Hinv) by done.
  fold remaining. cbn [fst snd set_currentElement m_currentElement m_elements].
  fold remaining.
  split_and!; [done|f_equal; f_equal; f_equal; unfold remaining; lia|lia|lia|].
  case_decide; split; intros; try done; lia.
Qed.

(** X9.  [Reset] always returns [S_OK] and puts the cursor at 0, wherever
    it was, without touching the sequence or the reference count: a
    following [GetCount] yields the full length [N], and a following
    [Next(N)] hands out the whole sequence again. *)
Theorem Reset_allows_enumerating_again e buffer (old : Z) :
  array_in_range e ->
  Count (m_elements e) <= Z.of_nat (length buffer) ->
  Reset e = (S_OK, mkProfilerEnum 0 (m_elements e) (m_refCount e))
  /\ GetCount (Some old) (snd (Reset e))
     = (S_OK, Some (Count (m_elements e)), snd (Reset e))
  /\ fetched_elements
       (Next (Count (m_elements e)) (Some buffer) (Some old) (snd (Reset e)))
     = m_elements e.
Proof.
  intros Hsize Hroom. split_and!; [done| |].
  - unfold GetCount, Reset. cbn [snd set_currentElement m_currentElement m_elements].
    rewrite Z.sub_0_r, to_ULONG_id; [done|].
    unfold array_in_range, is_ULONG, ULONG_MAX, INT_MAX, Count in *. lia.
  - set (e0 := snd (Reset e)).
    pose proof (Next_all_from_start e0 buffer old Hsize eq_refl Hroom) as Hall.
    change (m_elements e0) with (m_elements e) in Hall.
    rewrite Hall.
    unfold fetched_elements, Count. rewrite Nat2Z.id.
    by rewrite take_app_length.
Qed.

(** X13.  Construction followed by one [Next(N)]: the enumerator built
    from a source sequence of length [N] hands out exactly that sequence,
    in order, with [S_OK] and a fetched count of [N], whatever the
    freshly allocated block held before the copy. *)
Theorem constructed_enumerator_hands_out_its_source
    (source : list Element) (junk : nat -> Element) buffer (old : Z) :
  Count source <= INT_MAX ->
  Count source <= Z.of_nat (length buffer) ->
  exists e,
    ProfilerEnum_ctor (Some junk) source = Some e
    /\ Next (Count source) (Some buffer) (Some old) e
       = (S_OK,
          Some (source ++ drop (length source) buffer),
          Some (Count source),
          set_currentElement e (Count source))
    /\ fetched_elements (Next (Count source) (Some buffer) (Some old) e)
       = source.
Proof.
  intros Hsize Hroom. exists (mkProfilerEnum 0 source 1).
  split; [by apply ProfilerEnum_ctor_copies|].
  pose proof (Next_all_from_start (mkProfilerEnum 0 source 1) buffer old
                Hsize eq_refl Hroom) as Hall.
  cbn [m_elements] in Hall. rewrite Hall. split; [done|].
  unfold fetched_elements, Count. rewrite Nat2Z.id.
  by rewrite take_app_length.
Qed.

(** X14.  An exhausted enumerator stays exhausted: with the cursor at the
    end, no [Next], whatever its arguments, changes the enumerator or
    the buffer; [Skip] returns [S_FALSE] for every positive count and
    leaves the enumerator alone; and [GetCount] yields 0. *)
Theorem exhausted_enumerator_is_stable
    e (count : Z) (elements : option (list Element))
    (elementsFetched : option Z) (old : Z) :
  Invariant e ->
  m_currentElement e = Count (m_elements e) ->
  is_ULONG count ->
  snd (Next count elements elementsFetched e) = e
  /\ snd (fst (fst (Next count elements elementsFetched e))) = elements
  /\ Skip count e = (if decide (count = 0) then S_OK else S_FALSE, e)
  /\ GetCount (Some old) e = (S_OK, Some 0, e).
Proof.
  intros Hinv Hend Hcount.
  pose proof (Invariant_bounds e Hinv) as [Hc Ha].
  unfold is_ULONG, ULONG_MAX in Hcount.
  assert (Hrem : to_ULONG (Count (m_elements e) - m_currentElement e) = 0).
  { rewrite (remaining_no_wrap e Hinv). lia. }
  assert (Hmin : min count 0 = 0).
  { rewrite min_spec. lia. }
  assert (Hsame : set_currentElement e (to_ULONG (m_currentElement e + 0)) = e).
  { rewrite (advance_no_wrap e 0 Hinv) by lia.
    by rewrite Z.add_0_r, set_currentElement_same. }
  split_and!.
  - unfold Next.
    destruct (bool_decide _ && _); [done|].
    destruct (0 =? count); [done|].
    destruct elements as [buffer|]; [|done].
    cbn [snd]. by rewrite Hrem, Hmin, Hsame.
  - unfold Next.
    destruct (bool_decide _ && _); [done|].
    destruct (0 =? count); [done|].
    destruct elements as [buffer|]; [|done].
    cbn [fst snd]. by rewrite Hrem, Hmin.
  - unfold Skip. rewrite Hrem, Hmin, Hsame. f_equal.
    destruct (Z.ltb_spec 0 count); case_decide; done || lia.
  - unfold GetCount. by rewrite Hrem.
Qed.

(** *** Runs of calls *)

Lemma requested_total_nonneg (calls : list (Z * list Element * Z)) :
  Forall call_has_room calls -> 0 <= requested_total calls.
Proof.
  induction 1 as [|call calls [Hreq _] _ IH]; [done|].
  change (requested_total (call :: calls))
    with (fst (fst call) + requested_total calls).
  unfold is_ULONG in Hreq. lia.
Qed.

(** X12.  Any run of [Next] calls on a well-formed enumerator, each with
    a buffer that has room for its request, hands out consecutive slices
    of the sequence: put together in call order, the fetched elements
    are the [min(total, N - c)] elements from the cursor [c] on, where
    [total] is the sum of the requests, none skipped and none repeated,
    and the cursor ends that far on. *)
Theorem Next_calls_hand_out_consecutive_slices
    (calls : list (Z * list Element * Z)) :
  forall e,
    Invariant e ->
    Forall call_has_room calls ->
    Next_calls calls e
    = (take (Z.to_nat (Z.min (requested_total calls)
                             (Count (m_elements e) - m_currentElement e)))
            (drop (Z.to_nat (m_currentElement e)) (m_elements e)),
       set_currentElement e
         (m_currentElement e
          + Z.min (requested_total calls)
                  (Count (m_elements e) - m_currentElement e))).
Proof.
  induction calls as [|[[req buffer] old] calls IH]; intros e Hinv Hroom.
  - pose proof (Invariant_bounds e Hinv) as [Hc Ha].
    cbn [Next_calls requested_total foldr].
    replace (Z.min 0 (Count (m_elements e) - m_currentElement e)) with 0 by lia.
    by rewrite take_0, Z.add_0_r, set_currentElement_same.
  - inversion_clear Hroom as [|?? [Hreq Hcap] Hrest].
    cbn [fst snd] in Hreq, Hcap.
    pose proof (Invariant_bounds e Hinv) as [Hc Ha].
    pose proof (requested_total_nonneg calls Hrest) as Htotal.
    unfold is_ULONG, ULONG_MAX in Hreq.
    destruct (Next_fetched e req buffer old Hinv ltac:(done) ltac:(lia))
      as [Hf Hs].
    cbn [Next_calls]. rewrite Hf, Hs.
    set (k := Z.min req (Count (m_elements e) - m_currentElement e)) in *.
    assert (Hinv1 : Invariant (set_currentElement e (m_currentElement e + k))).
    { apply Invariant_set_currentElement; [done|lia]. }
    rewrite (IH _ Hinv1 Hrest).
    cbn [fst snd set_currentElement m_currentElement m_elements].
    change (requested_total ((req, buffer, old) :: calls))
      with (req + requested_total calls).
    set (t := requested_total calls) in *.
    set (N := Count (m_elements e)) in *.
    set (c := m_currentElement e) in *.
    f_equal.
    + replace (Z.to_nat (c + k)) with (Z.to_nat c + Z.to_nat k)%nat by lia.
      rewrite <- drop_drop, take_take_drop. f_equal. lia.
    + unfold set_currentElement. cbn [m_elements m_refCount]. f_equal. lia.
Qed.

Lemma exec_keeps_elements (c : Call Element IID) (self l : loc)
    (h : gmap loc (ProfilerEnum Element)) e :
  h !! l = Some e ->
  (self = l -> c <> CallRelease) ->
  exists e',
    exec pEnumInterfaceIID IID_IUnknown c self h !! l = Some e'
    /\ m_elements e' = m_elements e.
Proof.
  intros Hl Hkeep.
  destruct (decide (l = self)) as [->|Hne].
  - unfold exec. rewrite Hl.
    destruct c; try (rewrite lookup_insert_eq; eexists; split; [done|]).
    + unfold QueryInterface. by repeat case_decide.
    + done.
    + by destruct Hkeep.
    + unfold Next.
      destruct (bool_decide _ && _); [done|].
      destruct (0 =? _); [done|].
      by destruct elements.
    + by destruct count.
    + done.
    + done.
    + destruct (Clone _ _ _) as [[[hr slot] created] this'] eqn:Hclone.
      pose proof (f_equal snd Hclone) as Hthis.
      rewrite Clone_this in Hthis. simpl in Hthis. subst this'.
      destruct created as [[l' e'']|].
      * apply Clone_created in Hclone as (Hnew & _ & _). simpl in Hnew.
        unfold operator_new in Hnew. destruct new_succeeds; [|done].
        injection Hnew as <-.
        exists e. split; [|done].
        rewrite lookup_insert_ne; [by rewrite lookup_insert_eq|].
        intros Heq. apply (is_fresh (dom h)). rewrite Heq.
        by eapply elem_of_dom_2.
      * exists e. by rewrite lookup_insert_eq.
  - exists e. split; [|done].
    rewrite exec_frame; [done|done|by rewrite Hl].
Qed.

(** X10.  The backing sequence is written once: whatever calls are made,
    on whatever objects of the heap, an enumerator that is not released
    stays alive and keeps the very sequence it had. *)
Theorem backing_sequence_is_never_modified
    (trace : list (loc * Call Element IID)) (l : loc) :
  forall (h : gmap loc (ProfilerEnum Element)) e,
    h !! l = Some e ->
    Forall (fun call => fst call = l -> snd call <> CallRelease) trace ->
    exists e',
      run pEnumInterfaceIID IID_IUnknown trace h !! l = Some e'
      /\ m_elements e' = m_elements e.
Proof.
  induction trace as [|[self c] trace IH]; intros h e Hl Hkeep.
  - by exists e.
  - inversion_clear Hkeep as [|?? Hc Hrest]. cbn [fst snd] in Hc.
    destruct (exec_keeps_elements c self l h e Hl Hc) as (e1 & Hl1 & Hel1).
    destruct (IH _ e1 Hl1 Hrest) as (e' & Hl' & Hel').
    exists e'. split; [exact Hl'|congruence].
Qed.

(** X11.  Each call changes only what it is for.  On an object that is
    alive after the call, the sequence is the same; [Next], [Skip] and
    [Reset] leave the reference count alone; [QueryInterface], [AddRef]
    and [Release] leave the cursor alone; [GetCount] and [Clone] leave
    the object exactly as it was. *)
Theorem each_call_changes_only_its_own_member
    (c : Call Element IID) (self : loc)
    (h : gmap loc (ProfilerEnum Element)) e e' :
  h !! self = Some e ->
  exec pEnumInterfaceIID IID_IUnknown c self h !! self = Some e' ->
  m_elements e' = m_elements e
  /\ match c with
     | CallNext _ _ _ | CallSkip _ | CallReset =>
         m_refCount e' = m_refCount e
     | CallQueryInterface _ _ | CallAddRef | CallRelease =>
         m_currentElement e' = m_currentElement e
     | CallGetCount _ | CallClone _ _ _ => e' = e
     end.
Proof.
  intros Hself. unfold exec. rewrite Hself.
  destruct c.
  - rewrite lookup_insert_eq. intros [= <-].
    unfold QueryInterface. by repeat case_decide.
  - rewrite lookup_insert_eq. by intros [= <-].
  - unfold Release. destruct (0 =? _); cbn [snd].
    + by rewrite lookup_delete_eq.
    + rewrite lookup_insert_eq. by intros [= <-].
  - rewrite lookup_insert_eq. intros [= <-]. unfold Next.
    destruct (bool_decide _ && _); [done|].
    destruct (0 =? _); [done|].
    by destruct elements.
  - rewrite lookup_insert_eq. intros [= <-]. by destruct count.
  - rewrite lookup_insert_eq. by intros [= <-].
  - rewrite lookup_insert_eq. by intros [= <-].
  - destruct (Clone _ _ _) as [[[hr slot] created] this'] eqn:Hclone.
    pose proof (f_equal snd Hclone) as Hthis.
    rewrite Clone_this in Hthis. simpl in Hthis. subst this'.
    destruct created as [[l' e'']|].
    + apply Clone_created in Hclone as (Hnew & _ & _). simpl in Hnew.
      unfold operator_new in Hnew. destruct new_succeeds; [|done].
      injection Hnew as <-.
      rewrite lookup_insert_ne.
      * rewrite lookup_insert_eq. by intros [= <-].
      * intros Heq. apply (is_fresh (dom h)). rewrite Heq.
        by eapply elem_of_dom_2.
    + rewrite lookup_insert_eq. by intros [= <-].
Qed.

End FurtherProperties.

(** * The further properties at work on [ProfilerObjectEnum] *)

(** X1 at work: three elements asked for, no buffer. *)
Lemma Next_without_buffer_is_invalid_witness :
  3 <> 0
  /\ Next 3 None (Some 0) (sample_enum 1)
     = (E_INVALIDARG, None, Some 0, sample_enum 1).
Proof.
  split; [lia|].
  exact (Next_without_buffer_is_invalid (sample_enum 1) 3 (Some 0) ltac:(lia)).
Defined.

(** X2 at work: a failed call, two elements and no fetched-count slot. *)
Lemma Next_failure_changes_nothing_witness :
  SUCCEEDED (fst (fst (fst (Next 2 (Some (sample_buffer 2)) None (sample_enum 0)))))
    = false
  /\ Next 2 (Some (sample_buffer 2)) None (sample_enum 0)
     = (E_INVALIDARG, Some (sample_buffer 2), None, sample_enum 0).
Proof.
  split; [reflexivity|].
  exact (proj1 (Next_failure_changes_nothing
                  (sample_enum 0) 2 (Some (sample_buffer 2)) None eq_refl)).
Defined.

(** X3 at work: one item at cursor 4 of 5. *)
Lemma Next_one_without_fetched_slot_advances_one_item_witness :
  Invariant (sample_enum 4)
  /\ (1 <= length (sample_buffer 2))%nat
  /\ Next 1 (Some (sample_buffer 2)) None (sample_enum 4)
     = (S_OK, Some [69; 0], None, sample_enum 5).
Proof.
  split_and!; [exact (sample_enum_Invariant 4 ltac:(lia)) | simpl; lia |].
  exact (Next_one_without_fetched_slot_advances_one_item
           (sample_enum 4) (sample_buffer 2)
           (sample_enum_Invariant 4 ltac:(lia)) ltac:(simpl; lia)).
Defined.

(** X4 at work: the last of three references is not yet the last one. *)
Lemma Release_destroys_exactly_at_zero_witness :
  1 <= 3 <= INT_MAX
  /\ Release (mkProfilerEnum 2 sample_elements 3)
     = (2, Some (mkProfilerEnum 2 sample_elements 2)).
Proof.
  split; [by compute|].
  exact (Release_destroys_exactly_at_zero
           (mkProfilerEnum 2 sample_elements 3) ltac:(by compute)).
Defined.

(** X5 at work: a reference through the enumerator's own identifier. *)
Lemma reference_taken_and_released_restores_the_object_witness :
  1 <= 1 < INT_MAX
  /\ fst (AddRef (sample_enum 2)) = 2
  /\ Release (snd (AddRef (sample_enum 2))) = (1, Some (sample_enum 2))
  /\ Release (snd (QueryInterface sample_IID_ICorProfilerObjectEnum
                     sample_IID_IUnknown 1%positive
                     sample_IID_ICorProfilerObjectEnum None (sample_enum 2)))
     = (1, Some (sample_enum 2)).
Proof.
  split; [by compute|].
  exact (reference_taken_and_released_restores_the_object
           sample_IID_ICorProfilerObjectEnum sample_IID_IUnknown
           1%positive sample_IID_ICorProfilerObjectEnum None (sample_enum 2)
           ltac:(by compute) (or_introl eq_refl)).
Defined.

(** X6 at work: the block allocation of the constructor throws. *)
Lemma Clone_out_of_memory_clears_the_handle_witness :
  Clone (Some (Some 9%positive))
        (mkNewOutcome (operator_new true sample_heap) None) (sample_enum 2)
  = (E_OUTOFMEMORY, Some None, None, sample_enum 2)
  /\ exec sample_IID_ICorProfilerObjectEnum sample_IID_IUnknown
          (CallClone (Some (Some 9%positive)) true None) 1%positive sample_heap
     = sample_heap.
Proof.
  exact (Clone_out_of_memory_clears_the_handle
           sample_IID_ICorProfilerObjectEnum sample_IID_IUnknown
           sample_heap 1%positive (sample_enum 2) (Some 9%positive) true None
           (or_intror eq_refl)).
Defined.

(** X7 at work: ten elements from cursor 3 of 5. *)
Lemma Skip_agrees_with_Next_witness :
  Invariant (sample_enum 3)
  /\ is_ULONG 10
  /\ Skip 10 (sample_enum 3)
     = (fst (fst (fst (Next 10 (Some (sample_buffer 4)) (Some 0) (sample_enum 3)))),
        snd (Next 10 (Some (sample_buffer 4)) (Some 0) (sample_enum 3))).
Proof.
  split_and!; [exact (sample_enum_Invariant 3 ltac:(lia)) | by compute |].
  exact (Skip_agrees_with_Next (sample_enum 3) 10 (sample_buffer 4) 0
           (sample_enum_Invariant 3 ltac:(lia))
           ltac:(by compute) ltac:(by compute)).
Defined.

(** X8 at work: ten elements skipped from cursor 1 of 5 are four. *)
Lemma GetCount_around_Skip_gives_the_elements_skipped_witness :
  Invariant (sample_enum 1)
  /\ is_ULONG 10
  /\ exists before after : Z,
       GetCount (Some 0) (sample_enum 1) = (S_OK, Some before, sample_enum 1)
       /\ GetCount (Some 0) (snd (Skip 10 (sample_enum 1)))
          = (S_OK, Some after, snd (Skip 10 (sample_enum 1)))
       /\ before - after = Z.min 10 before
       /\ m_currentElement (snd (Skip 10 (sample_enum 1)))
          = m_currentElement (sample_enum 1) + (before - after)
       /\ (fst (Skip 10 (sample_enum 1)) = S_OK <-> before - after = 10).
Proof.
  split_and!; [exact (sample_enum_Invariant 1 ltac:(lia)) | by compute |].
  exact (GetCount_around_Skip_gives_the_elements_skipped
           (sample_enum 1) 10 0 0
           (sample_enum_Invariant 1 ltac:(lia)) ltac:(by compute)).
Defined.

(** X9 at work: back to the start from cursor 4 of 5. *)
Lemma Reset_allows_enumerating_again_witness :
  array_in_range (sample_enum 4)
  /\ Reset (sample_enum 4) = (S_OK, sample_enum 0)
  /\ GetCount (Some 0) (snd (Reset (sample_enum 4)))
     = (S_OK, Some 5, sample_enum 0)
  /\ fetched_elements
       (Next 5 (Some (sample_buffer 5)) (Some 0) (snd (Reset (sample_enum 4))))
     = sample_elements.
Proof.
  split; [by compute|].
  exact (Reset_allows_enumerating_again (sample_enum 4) (sample_buffer 5) 0
           ltac:(by compute) ltac:(by compute)).
Defined.

(** X10 at work: calls on the object at address 1, none of them a
    [Release], leave it alive with its five elements. *)
Lemma backing_sequence_is_never_modified_witness :
  sample_heap !! 1%positive = Some (sample_enum 2)
  /\ exists e',
       run sample_IID_ICorProfilerObjectEnum sample_IID_IUnknown
           [ (1%positive, CallNext 10 (Some (sample_buffer 10)) (Some 0));
             (1%positive, CallAddRef);
             (1%positive, CallClone (Some None) true (Some (fun _ => 0)));
             (2%positive, CallRelease);
             (1%positive, CallReset) ]
           sample_heap !! 1%positive
       = Some e'
       /\ m_elements e' = m_elements (sample_enum 2).
Proof.
  split; [reflexivity|].
  apply (backing_sequence_is_never_modified
           sample_IID_ICorProfilerObjectEnum sample_IID_IUnknown);
    [reflexivity|].
  repeat constructor; cbn [fst snd]; intros Heq; discriminate.
Defined.

(** X11 at work: [Skip(2)] at cursor 2 moves the cursor and nothing else. *)
Lemma each_call_changes_only_its_own_member_witness :
  sample_heap !! 1%positive = Some (sample_enum 2)
  /\ exec sample_IID_ICorProfilerObjectEnum sample_IID_IUnknown
          (CallSkip 2) 1%positive sample_heap !! 1%positive
     = Some (sample_enum 4)
  /\ m_elements (sample_enum 4) = m_elements (sample_enum 2)
  /\ m_refCount (sample_enum 4) = m_refCount (sample_enum 2).
Proof.
  split_and!; [reflexivity | reflexivity |..];
    apply (each_call_changes_only_its_own_member
             sample_IID_ICorProfilerObjectEnum sample_IID_IUnknown
             (CallSkip 2) 1%positive sample_heap
             (sample_enum 2) (sample_enum 4) eq_refl eq_refl).
Defined.

(** X12 at work: requests of 2, 0, 1 and 4 elements hand out the five
    elements there are. *)
Lemma Next_calls_hand_out_consecutive_slices_witness :
  Invariant (sample_enum 0)
  /\ Forall call_has_room sample_Next_calls
  /\ Next_calls sample_Next_calls (sample_enum 0)
     = (sample_elements, sample_enum 5).
Proof.
  assert (Hroom : Forall (call_has_room (Element := ObjectID)) sample_Next_calls)
    by (repeat constructor; by compute).
  split_and!; [exact (sample_enum_Invariant 0 ltac:(lia)) | exact Hroom |].
  exact (Next_calls_hand_out_consecutive_slices sample_Next_calls
           (sample_enum 0) (sample_enum_Invariant 0 ltac:(lia)) Hroom).
Defined.

(** X13 at work: [A,B,C,D,E] in, [A,B,C,D,E] out. *)
Lemma constructed_enumerator_hands_out_its_source_witness :
  Count sample_elements <= INT_MAX
  /\ exists e,
       ProfilerEnum_ctor (Some (fun _ => 0)) sample_elements = Some e
       /\ Next (Count sample_elements) (Some (sample_buffer 6)) (Some 0) e
          = (S_OK,
             Some (sample_elements ++ drop (length sample_elements) (sample_buffer 6)),
             Some (Count sample_elements),
             set_currentElement e (Count sample_elements))
       /\ fetched_elements
            (Next (Count sample_elements) (Some (sample_buffer 6)) (Some 0) e)
          = sample_elements.
Proof.
  split; [by compute|].
  exact (constructed_enumerator_hands_out_its_source
           sample_elements (fun _ => 0) (sample_buffer 6) 0
           ltac:(by compute) ltac:(by compute)).
Defined.

(** X14 at work: at cursor 5 of 5. *)
Lemma exhausted_enumerator_is_stable_witness :
  Invariant (sample_enum 5)
  /\ is_ULONG 3
  /\ snd (Next 3 (Some (sample_buffer 3)) (Some 1) (sample_enum 5)) = sample_enum 5
  /\ snd (fst (fst (Next 3 (Some (sample_buffer 3)) (Some 1) (sample_enum 5))))
     = Some (sample_buffer 3)
  /\ Skip 3 (sample_enum 5) = (S_FALSE, sample_enum 5)
  /\ GetCount (Some 0) (sample_enum 5) = (S_OK, Some 0, sample_enum 5).
Proof.
  split_and!; [exact (sample_enum_Invariant 5 ltac:(lia)) | by compute |..];
    apply (exhausted_enumerator_is_stable
             (sample_enum 5) 3 (Some (sample_buffer 3)) (Some 1) 0
             (sample_enum_Invariant 5 ltac:(lia)) eq_refl ltac:(by compute)).
Defined.
